(** * Mind-health-web: the chat box of [chatbox.js]

    A shallow embedding of the conversation logic of the React component
    [MentalHealthChatbox]: the template tables, the two reply generators
    and the event handlers, with the component state as a record that the
    handlers transform.

    Conventions.
    - A JavaScript string is a [string] holding its UTF-8 encoding, so the
      literals below are the literals of the source.  Substring search on
      well-formed UTF-8 agrees with substring search on code points.
    - A value that may be [undefined] (a missing property, an index out of
      range) has type [value].
    - [currentLanguage] only ever holds the initial ['english'] or the value
      of one of the four [<option>]s of the language selector: it is an
      enumeration.  The mood is the string the handler receives.
    - The ambient inputs of a handler are arguments: the strings returned by
      [new Date().toLocaleTimeString()], in evaluation order, and the number
      returned by [Math.random()], a rational. *)

From Stdlib Require Import String Ascii List Bool Arith NArith ZArith QArith Qround Lia.
Import ListNotations.
Close Scope Q_scope.
Open Scope string_scope.

(** ** Definitions *)

(** *** String built-ins *)

Module JSString.

(** UTF-8 encoding of a code point of the Basic Multilingual Plane. *)
Definition encode (cp : N) : string :=
  let byte n := String (ascii_of_N n) "" in
  (if cp <? 128 then byte cp
   else if cp <? 2048 then
     byte (192 + cp / 64) ++ byte (128 + cp mod 64)
   else
     byte (224 + cp / 4096) ++ byte (128 + (cp / 64) mod 64)
       ++ byte (128 + cp mod 64))%N.

(** The code points of ECMAScript's WhiteSpace and LineTerminator
    productions, which [String.prototype.trim] removes. *)
Definition whiteSpaceCodePoints : list N :=
  [ 9; 10; 11; 12; 13; 32; 160; 5760;
    8192; 8193; 8194; 8195; 8196; 8197; 8198; 8199; 8200; 8201; 8202;
    8232; 8233; 8239; 8287; 12288; 65279 ]%N.

Definition whiteSpace : list string := map encode whiteSpaceCodePoints.

(** [dropPrefix p s] is what follows [p] in [s], when [s] starts with [p]. *)
Fixpoint dropPrefix (p s : string) : option string :=
  match p, s with
  | EmptyString, _ => Some s
  | String a p', String b s' =>
      if Ascii.eqb a b then dropPrefix p' s' else None
  | String _ _, EmptyString => None
  end.

(** Removes one leading white space character, if there is one. *)
Fixpoint dropOneOf (ps : list string) (s : string) : option string :=
  match ps with
  | [] => None
  | p :: ps' =>
      match dropPrefix p s with
      | Some r => Some r
      | None => dropOneOf ps' s
      end
  end.

Fixpoint trimStartLoop (fuel : nat) (s : string) : string :=
  match fuel with
  | O => s
  | S fuel' =>
      match dropOneOf whiteSpace s with
      | Some r => trimStartLoop fuel' r
      | None => s
      end
  end.

(** Every round removes at least one byte: [length s] rounds are enough
    (lemma [trimStart_done]). *)
Definition trimStart (s : string) : string :=
  trimStartLoop (String.length s) s.

Definition isWhiteSpaceOnly (s : string) : bool :=
  String.eqb (trimStart s) "".

Fixpoint trimEnd (s : string) : string :=
  match s with
  | EmptyString => EmptyString
  | String c s' =>
      if isWhiteSpaceOnly s then EmptyString else String c (trimEnd s')
  end.

Definition trim (s : string) : string := trimEnd (trimStart s).

(** [toLowerCase] on the ASCII letters, the only cased letters of the
    keyword lists; the Devanagari and Kannada scripts have no case.  Other
    bytes are kept.  For the keyword tests this loses nothing: outside
    ASCII only U+212A lower-cases to an ASCII letter alone (k, in no
    keyword) and U+0130 to i followed by U+0307, which no keyword holds
    after an i. *)
Definition isUpper (c : ascii) : bool :=
  let n := N_of_ascii c in ((65 <=? n) && (n <=? 90))%N.

Definition lowerChar (c : ascii) : ascii :=
  if isUpper c then ascii_of_N (N_of_ascii c + 32) else c.

Fixpoint toLowerCase (s : string) : string :=
  match s with
  | EmptyString => EmptyString
  | String c s' => String (lowerChar c) (toLowerCase s')
  end.

(** [s.includes(k)]: [k] occurs in [s] as a substring. *)
Fixpoint includes (s k : string) : bool :=
  String.prefix k s
  || match s with
     | EmptyString => false
     | String _ s' => includes s' k
     end.

End JSString.

(** *** Values *)

Inductive value : Type :=
| undefined
| str (s : string).

(** ToString, as applied by a template literal. *)
Definition toString (v : value) : string :=
  match v with
  | undefined => "undefined"
  | str s => s
  end.

(** [v || d] for a string-or-undefined [v]: the empty string is falsy. *)
Definition orElse (v : value) (d : string) : string :=
  match v with
  | undefined => d
  | str s => if String.eqb s "" then d else s
  end.

(** [o[k]] on an object literal with string values (own properties). *)
Fixpoint getProperty (o : list (string * string)) (k : string) : value :=
  match o with
  | [] => undefined
  | (k', v) :: o' => if String.eqb k' k then str v else getProperty o' k
  end.

(** [arr[i]] for an integral number [i]. *)
Definition index (arr : list string) (i : Z) : value :=
  if (i <? 0)%Z then undefined
  else match nth_error arr (Z.to_nat i) with
       | Some s => str s
       | None => undefined
       end.

(** [Math.floor(r * n)]. *)
Definition floorTimes (r : Q) (n : nat) : Z :=
  Qfloor (r * inject_Z (Z.of_nat n))%Q.

(** *** The template tables *)

Inductive Language : Type := english | hindi | marathi | kannada.

Record Translation : Type :=
  { title : string;
    placeholder : string;
    send : string;
    moodQuestion : string;
    languageLabel : string;
    greeting : string;
    moodLabels : list (string * string) }.

(** The entries of [translations]. *)
Definition translations_english : Translation :=
  {| title := "Mental Health Support 💙";
     placeholder := "Type your message here...";
     send := "Send";
     moodQuestion := "How are you feeling today?";
     languageLabel := "Language:";
     greeting := "Hello! I'm here to support you. How are you feeling today? 😊";
     moodLabels :=
       [ ("happy", "Happy");
         ("sad", "Sad");
         ("anxious", "Anxious");
         ("angry", "Angry");
         ("calm", "Calm");
         ("confused", "Confused") ] |}.

Definition translations_hindi : Translation :=
  {| title := "मानसिक स्वास्थ्य सहायता 💙";
     placeholder := "यहाँ अपना संदेश लिखें...";
     send := "भेजें";
     moodQuestion := "आज आप कैसा महसूस कर रहे हैं?";
     languageLabel := "भाषा:";
     greeting := "नमस्ते! मैं आपकी सहायता के लिए यहाँ हूँ। आज आप कैसा महसूस कर रहे हैं? 😊";
     moodLabels :=
       [ ("happy", "खुश");
         ("sad", "उदास");
         ("anxious", "चिंतित");
         ("angry", "गुस्सा");
         ("calm", "शांत");
         ("confused", "भ्रमित") ] |}.

Definition translations_marathi : Translation :=
  {| title := "मानसिक आरोग्य सहाय्य 💙";
     placeholder := "तुमचा संदेश येथे टाइप करा...";
     send := "पाठवा";
     moodQuestion := "आज तुम्ही कसे वाटत आहात?";
     languageLabel := "भाषा:";
     greeting := "नमस्कार! मी तुमच्या मदतीसाठी येथे आहे। आज तुम्ही कसे वाटत आहात? 😊";
     moodLabels :=
       [ ("happy", "आनंदी");
         ("sad", "दुःखी");
         ("anxious", "चिंताग्रस्त");
         ("angry", "रागावलेला");
         ("calm", "शांत");
         ("confused", "गोंधळलेला") ] |}.

Definition translations_kannada : Translation :=
  {| title := "ಮಾನಸಿಕ ಆರೋಗ್ಯ ಬೆಂಬಲ 💙";
     placeholder := "ನಿಮ್ಮ ಸಂದೇಶವನ್ನು ಇಲ್ಲಿ ಟೈಪ್ ಮಾಡಿ...";
     send := "ಕಳುಹಿಸಿ";
     moodQuestion := "ಇಂದು ನೀವು ಹೇಗೆ ಅನಿಸುತ್ತಿದೆ?";
     languageLabel := "ಭಾಷೆ:";
     greeting := "ನಮಸ್ಕಾರ! ನಿಮ್ಮನ್ನು ಬೆಂಬಲಿಸಲು ನಾನು ಇಲ್ಲಿದ್ದೇನೆ। ಇಂದು ನೀವು ಹೇಗೆ ಅನಿಸುತ್ತಿದೆ? 😊";
     moodLabels :=
       [ ("happy", "ಸಂತೋಷ");
         ("sad", "ದುಃಖ");
         ("anxious", "ಆತಂಕ");
         ("angry", "ಕೋಪ");
         ("calm", "ಶಾಂತ");
         ("confused", "ಗೊಂದಲ") ] |}.

(** The lists of [mentalHealthResponses]. *)
Definition depression_responses (l : Language) : list string :=
  match l with
  | english =>
      [ "I understand you're going through a tough time. Remember, it's okay to feel this way, and you're not alone. 🤗 Try taking small steps like going for a walk or talking to someone you trust.";
        "Depression can feel overwhelming, but you're stronger than you know. 💪 Consider practicing deep breathing exercises or journaling your thoughts." ]
  | hindi =>
      [ "मैं समझ सकता हूँ कि आप कठिन समय से गुजर रहे हैं। याद रखें, ऐसा महसूस करना ठीक है, और आप अकेले नहीं हैं। 🤗 छोटे कदम उठाने की कोशिश करें जैसे टहलना या किसी विश्वसनीय व्यक्ति से बात करना।" ]
  | marathi =>
      [ "मला समजते की तुम्ही कठीण काळातून जात आहात। लक्षात ठेवा, असे वाटणे सामान्य आहे, आणि तुम्ही एकटे नाही आहात। 🤗 लहान पावले उचलण्याचा प्रयत्न करा जसे फिरायला जाणे किंवा तुमच्या विश्वासू व्यक्तीशी बोलणे।" ]
  | kannada =>
      [ "ನೀವು ಕಷ್ಟದ ಸಮಯದಲ್ಲಿದ್ದೀರಿ ಎಂದು ನನಗೆ ಅರ್ಥವಾಗುತ್ತದೆ। ನೆನಪಿಡಿ, ಹೀಗೆ ಅನಿಸುವುದು ಸಾಮಾನ್ಯ, ಮತ್ತು ನೀವು ಒಬ್ಬಂಟಿಗರಲ್ಲ। 🤗 ನಡೆಯಲು ಹೋಗುವುದು ಅಥವಾ ನಂಬಿಕೆಯ ವ್ಯಕ್ತಿಯೊಂದಿಗೆ ಮಾತನಾಡುವಂತಹ ಸಣ್ಣ ಹೆಜ್ಜೆಗಳನ್ನು ತೆಗೆದುಕೊಳ್ಳಲು ಪ್ರಯತ್ನಿಸಿ।" ]
  end.

Definition anxiety_responses (l : Language) : list string :=
  match l with
  | english =>
      [ "Anxiety can be really challenging. Try the 4-7-8 breathing technique: breathe in for 4, hold for 7, exhale for 8. 🌬️ You're going to get through this.";
        "I hear you're feeling anxious. Ground yourself by naming 5 things you can see, 4 you can touch, 3 you can hear, 2 you can smell, and 1 you can taste. 🧘‍♀️" ]
  | hindi =>
      [ "चिंता वास्तव में चुनौतीपूर्ण हो सकती है। 4-7-8 सांस लेने की तकनीक आज़माएं: 4 के लिए सांस लें, 7 के लिए रोकें, 8 के लिए छोड़ें। 🌬️ आप इससे निकल जाएंगे।" ]
  | marathi =>
      [ "चिंता खरोखरच आव्हानात्मक असू शकते। 4-7-8 श्वास तंत्र वापरून पहा: 4 साठी श्वास घ्या, 7 साठी धरा, 8 साठी सोडा। 🌬️ तुम्ही यातून बाहेर पडाल।" ]
  | kannada =>
      [ "ಆತಂಕವು ನಿಜವಾಗಿಯೂ ಸವಾಲಿನದ್ದಾಗಿರಬಹುದು। 4-7-8 ಉಸಿರಾಟದ ತಂತ್ರವನ್ನು ಪ್ರಯತ್ನಿಸಿ: 4 ಕ್ಕೆ ಉಸಿರು ತೆಗೆದುಕೊಳ್ಳಿ, 7 ಕ್ಕೆ ಹಿಡಿದಿಟ್ಟುಕೊಳ್ಳಿ, 8 ಕ್ಕೆ ಬಿಡಿ। 🌬️ ನೀವು ಇದನ್ನು ಜಯಿಸುವಿರಿ।" ]
  end.

Definition stress_responses (l : Language) : list string :=
  match l with
  | english =>
      [ "Stress is your body's way of responding to challenges. Take a moment to pause and breathe deeply. 🌸 Consider breaking your tasks into smaller, manageable pieces.";
        "I can sense you're feeling stressed. Try progressive muscle relaxation or listen to calming music. 🎵 Remember to be kind to yourself." ]
  | hindi =>
      [ "तनाव आपके शरीर का चुनौतियों का जवाब देने का तरीका है। एक पल रुकें और गहरी सांस लें। 🌸 अपने कार्यों को छोटे, प्रबंधनीय टुकड़ों में बांटने पर विचार करें।" ]
  | marathi =>
      [ "तणाव हा तुमच्या शरीराचा आव्हानांना प्रतिसाद देण्याचा मार्ग आहे। एक क्षण थांबा आणि खोल श्वास घ्या। 🌸 तुमची कामे लहान, व्यवस्थापन करण्यायोग्य भागांमध्ये विभागण्याचा विचार करा।" ]
  | kannada =>
      [ "ಒತ್ತಡವು ಸವಾಲುಗಳಿಗೆ ಪ್ರತಿಕ್ರಿಯಿಸುವ ನಿಮ್ಮ ದೇಹದ ವಿಧಾನವಾಗಿದೆ। ಒಂದು ಕ್ಷಣ ವಿರಾಮ ತೆಗೆದುಕೊಂಡು ಆಳವಾಗಿ ಉಸಿರಾಡಿ। 🌸 ನಿಮ್ಮ ಕಾರ್ಯಗಳನ್ನು ಸಣ್ಣ, ನಿರ್ವಹಿಸಬಹುದಾದ ಭಾಗಗಳಾಗಿ ವಿಭಜಿಸುವುದನ್ನು ಪರಿಗಣಿಸಿ।" ]
  end.

(** The [genericResponses] table of [generateBotResponse]. *)
Definition genericResponses (l : Language) : list string :=
  match l with
  | english =>
      [ "I hear you. Can you tell me more about what you're experiencing? 🤗";
        "Thank you for sharing that with me. How long have you been feeling this way? 💙";
        "That sounds challenging. What do you think might help you feel better? 🌟" ]
  | hindi =>
      [ "मैं आपकी बात सुन रहा हूँ। क्या आप मुझे बता सकते हैं कि आप क्या अनुभव कर रहे हैं? 🤗";
        "मेरे साथ साझा करने के लिए धन्यवाद। आप कितने समय से ऐसा महसूस कर रहे हैं? 💙" ]
  | marathi =>
      [ "मी तुमचे ऐकत आहे। तुम्ही मला सांगू शकता का की तुम्ही काय अनुभवत आहात? 🤗";
        "माझ्याशी सामायिक केल्याबद्दल धन्यवाद। तुम्ही किती काळापासून असे वाटत आहे? 💙" ]
  | kannada =>
      [ "ನಾನು ನಿಮ್ಮ ಮಾತು ಕೇಳುತ್ತಿದ್ದೇನೆ. ನೀವು ಏನನ್ನು ಅನುಭವಿಸುತ್ತಿದ್ದೀರಿ ಎಂದು ನನಗೆ ಹೆಚ್ಚು ಹೇಳಬಹುದೇ? 🤗";
        "ನನ್ನೊಂದಿಗೆ ಹಂಚಿಕೊಂಡಿದ್ದಕ್ಕಾಗಿ ಧನ್ಯವಾದಗಳು. ನೀವು ಎಷ್ಟು ಕಾಲದಿಂದ ಹೀಗೆ ಅನಿಸುತ್ತಿದೆ? 💙" ]
  end.

(** The conditional chains of [generateMoodResponse] for the moods happy and
    calm and for its last branch; the last alternative of a chain is the
    Kannada text. *)
Definition happyResponse (l : Language) : string :=
  match l with
  | english =>
      "That's wonderful to hear! 🌟 Keep nurturing those positive feelings. What's bringing you joy today?"
  | hindi =>
      "यह सुनकर बहुत अच्छा लगा! 🌟 इन सकारात्मक भावनाओं को बनाए रखें। आज आपको क्या खुशी दे रहा है?"
  | marathi =>
      "हे ऐकून खूप आनंद झाला! 🌟 या सकारात्मक भावनांना वाढवत रहा। आज तुम्हाला काय आनंद देत आहे?"
  | kannada =>
      "ಇದನ್ನು ಕೇಳಿ ತುಂಬಾ ಸಂತೋಷವಾಯಿತು! 🌟 ಈ ಧನಾತ್ಮಕ ಭಾವನೆಗಳನ್ನು ಪೋಷಿಸುತ್ತಲೇ ಇರಿ। ಇಂದು ನಿಮಗೆ ಸಂತೋಷ ತರುತ್ತಿರುವುದು ಏನು?"
  end.

Definition calmResponse (l : Language) : string :=
  match l with
  | english =>
      "It's great that you're feeling calm! 🧘‍♀️ This is a perfect state for reflection and mindfulness. How can I support you today?"
  | hindi =>
      "यह बहुत अच्छा है कि आप शांत महसूस कर रहे हैं! 🧘‍♀️ यह चिंतन और सचेतता के लिए एक आदर्श स्थिति है। आज मैं आपकी कैसे सहायता कर सकता हूँ?"
  | marathi =>
      "तुम्ही शांत वाटत आहात हे खूप चांगले आहे! 🧘‍♀️ ही चिंतन आणि जागरूकतेसाठी एक आदर्श स्थिती आहे। आज मी तुमची कशी मदत करू शकतो?"
  | kannada =>
      "ನೀವು ಶಾಂತವಾಗಿ ಅನಿಸುತ್ತಿರುವುದು ಬಹಳ ಒಳ್ಳೆಯದು! 🧘‍♀️ ಇದು ಚಿಂತನೆ ಮತ್ತು ಸಾವಧಾನತೆಗೆ ಪರಿಪೂರ್ಣ ಸ್ಥಿತಿ. ಇಂದು ನಾನು ನಿಮ್ಮನ್ನು ಹೇಗೆ ಬೆಂಬಲಿಸಬಹುದು?"
  end.

Definition defaultResponse (l : Language) : string :=
  match l with
  | english =>
      "Thank you for sharing how you're feeling. I'm here to listen and support you. 💙 What would you like to talk about?"
  | hindi =>
      "आपने अपनी भावनाएं साझा करने के लिए धन्यवाद। मैं सुनने और आपका समर्थन करने के लिए यहाँ हूँ। 💙 आप किस बारे में बात करना चाहेंगे?"
  | marathi =>
      "तुमच्या भावना सामायिक केल्याबद्दल धन्यवाद। मी ऐकण्यासाठी आणि तुमचे समर्थन करण्यासाठी येथे आहे। 💙 तुम्हाला कशाबद्दल बोलायचे आहे?"
  | kannada =>
      "ನಿಮ್ಮ ಭಾವನೆಗಳನ್ನು ಹಂಚಿಕೊಂಡಿದ್ದಕ್ಕಾಗಿ ಧನ್ಯವಾದಗಳು. ನಾನು ಕೇಳಲು ಮತ್ತು ನಿಮ್ಮನ್ನು ಬೆಂಬಲಿಸಲು ಇಲ್ಲಿದ್ದೇನೆ। 💙 ನೀವು ಯಾವುದರ ಬಗ್ಗೆ ಮಾತನಾಡಲು ಬಯಸುತ್ತೀರಿ?"
  end.

Definition translations (l : Language) : Translation :=
  match l with
  | english => translations_english
  | hindi => translations_hindi
  | marathi => translations_marathi
  | kannada => translations_kannada
  end.

Record ResponseBank : Type :=
  { depression : Language -> list string;
    anxiety : Language -> list string;
    stress : Language -> list string }.

Definition mentalHealthResponses : ResponseBank :=
  {| depression := depression_responses;
     anxiety := anxiety_responses;
     stress := stress_responses |}.

(** *** The component *)

Inductive Sender : Type := user | bot.

Record Message : Type :=
  { text : value;
    sender : Sender;
    timestamp : string }.

Record State : Type :=
  { messages : list Message;
    inputValue : string;
    currentLanguage : Language;
    userMood : option string;
    showMoodSelector : bool }.

(** The [useState] defaults. *)
Definition initialState : State :=
  {| messages := [];
     inputValue := "";
     currentLanguage := english;
     userMood := None;
     showMoodSelector := false |}.

Definition setMessages (f : list Message -> list Message) (st : State) : State :=
  {| messages := f (messages st);
     inputValue := inputValue st;
     currentLanguage := currentLanguage st;
     userMood := userMood st;
     showMoodSelector := showMoodSelector st |}.

Definition setInputValue (v : string) (st : State) : State :=
  {| messages := messages st;
     inputValue := v;
     currentLanguage := currentLanguage st;
     userMood := userMood st;
     showMoodSelector := showMoodSelector st |}.

Definition setCurrentLanguage (l : Language) (st : State) : State :=
  {| messages := messages st;
     inputValue := inputValue st;
     currentLanguage := l;
     userMood := userMood st;
     showMoodSelector := showMoodSelector st |}.

Definition setUserMood (m : string) (st : State) : State :=
  {| messages := messages st;
     inputValue := inputValue st;
     currentLanguage := currentLanguage st;
     userMood := Some m;
     showMoodSelector := showMoodSelector st |}.

Definition setShowMoodSelector (b : bool) (st : State) : State :=
  {| messages := messages st;
     inputValue := inputValue st;
     currentLanguage := currentLanguage st;
     userMood := userMood st;
     showMoodSelector := b |}.

(** The effect that runs once after mounting: the initial greeting. *)
Definition mountEffect (now : string) (st : State) : State :=
  let st1 :=
    setMessages
      (fun _ => [ {| text := str (greeting (translations (currentLanguage st)));
                     sender := bot;
                     timestamp := now |} ]) st in
  setShowMoodSelector true st1.

Definition emojiMap : list (string * string) :=
  [ ("happy", "😊");
    ("sad", "😢");
    ("anxious", "😰");
    ("angry", "😠");
    ("calm", "😌");
    ("confused", "😕") ].

Definition getMoodEmoji (mood : string) : string :=
  orElse (getProperty emojiMap mood) "😐".

Definition generateMoodResponse (now : string) (currentLanguage : Language)
    (mood : string) : Message :=
  let responseText :=
    if String.eqb mood "sad" then
      index (depression mentalHealthResponses currentLanguage) 0
    else if String.eqb mood "anxious" then
      index (anxiety mentalHealthResponses currentLanguage) 0
    else if String.eqb mood "angry" then
      index (stress mentalHealthResponses currentLanguage) 0
    else if String.eqb mood "happy" then
      str (happyResponse currentLanguage)
    else if String.eqb mood "calm" then
      str (calmResponse currentLanguage)
    else
      str (defaultResponse currentLanguage) in
  {| text := responseText; sender := bot; timestamp := now |}.

Definition handleMoodSelection (now1 now2 : string) (mood : string)
    (st : State) : State :=
  let st1 := setUserMood mood st in
  let st2 := setShowMoodSelector false st1 in
  let moodMessage :=
    {| text :=
         str (toString (getProperty (moodLabels (translations (currentLanguage st))) mood)
              ++ " " ++ getMoodEmoji mood);
       sender := user;
       timestamp := now1 |} in
  let botResponse := generateMoodResponse now2 (currentLanguage st) mood in
  setMessages (fun prev => (prev ++ [moodMessage; botResponse])%list) st2.

Definition generateBotResponse (now : string) (rnd : Q)
    (currentLanguage : Language) (userMessage : string) : Message :=
  let lowerMessage := JSString.toLowerCase userMessage in
  let includes := JSString.includes lowerMessage in
  let pick (arr : list string) := index arr (floorTimes rnd (List.length arr)) in
  let response :=
    if includes "sad" || includes "depressed" || includes "down"
       || includes "उदास" || includes "दुखी" || includes "ದುಃಖ" then
      pick (depression mentalHealthResponses currentLanguage)
    else if includes "anxious" || includes "worried" || includes "panic"
            || includes "चिंतित" || includes "चिंताग्रस्त" || includes "ಆತಂಕ" then
      pick (anxiety mentalHealthResponses currentLanguage)
    else if includes "stress" || includes "overwhelmed" || includes "pressure"
            || includes "तनाव" || includes "तणाव" || includes "ಒತ್ತಡ" then
      pick (stress mentalHealthResponses currentLanguage)
    else
      pick (genericResponses currentLanguage) in
  {| text := response; sender := bot; timestamp := now |}.

Definition handleSendMessage (now1 now2 : string) (rnd : Q) (st : State) : State :=
  if String.eqb (JSString.trim (inputValue st)) "" then st
  else
    let userMessage :=
      {| text := str (inputValue st); sender := user; timestamp := now1 |} in
    let botResponse :=
      generateBotResponse now2 rnd (currentLanguage st) (inputValue st) in
    let st1 := setMessages (fun prev => (prev ++ [userMessage; botResponse])%list) st in
    setInputValue "" st1.

(** *** The four operations of the conversation engine

    [initialize] is the mounted component; [sendMessage] is the input
    field's [onChange] with the text followed by the send handler. *)

Definition initialize (now : string) : State := mountEffect now initialState.

Definition selectMood (now1 now2 : string) (mood : string) (st : State) : State :=
  handleMoodSelection now1 now2 mood st.

Definition sendMessage (now1 now2 : string) (rnd : Q) (rawText : string)
    (st : State) : State :=
  handleSendMessage now1 now2 rnd (setInputValue rawText st).

Definition setLanguage (l : Language) (st : State) : State :=
  setCurrentLanguage l st.

(** [getProperty] looks up own properties.  An object literal also inherits
    the properties of [Object.prototype]; the statements about the text of a
    looked-up value leave these keys out. *)
Definition objectPrototypeProperties : list string :=
  [ "constructor"; "__defineGetter__"; "__defineSetter__"; "hasOwnProperty";
    "__lookupGetter__"; "__lookupSetter__"; "isPrototypeOf";
    "propertyIsEnumerable"; "toString"; "valueOf"; "__proto__";
    "toLocaleString" ].

(** *** Sessions *)

Inductive Operation : Type :=
| SelectMood (now1 now2 : string) (mood : string)
| SendMessage (now1 now2 : string) (rnd : Q) (rawText : string)
| SetLanguage (l : Language).

Definition perform (op : Operation) (st : State) : State :=
  match op with
  | SelectMood now1 now2 mood => selectMood now1 now2 mood st
  | SendMessage now1 now2 rnd rawText => sendMessage now1 now2 rnd rawText st
  | SetLanguage l => setLanguage l st
  end.

Definition runSession (now : string) (ops : list Operation) : State :=
  fold_left (fun st op => perform op st) ops (initialize now).

Definition isSelectMood (op : Operation) : bool :=
  match op with
  | SelectMood _ _ _ => true
  | _ => false
  end.

(** The senders of the turns an operation is to append. *)
Definition expectedSenders (op : Operation) : list Sender :=
  match op with
  | SelectMood _ _ _ => [user; bot]
  | SendMessage _ _ _ rawText =>
      if String.eqb (JSString.trim rawText) "" then [] else [user; bot]
  | SetLanguage _ => []
  end.

(** *** The closed sets of the specification *)

Inductive MoodLabel : Type := happy | sad | anxious | angry | calm | confused.

Definition moodKey (m : MoodLabel) : string :=
  match m with
  | happy => "happy"
  | sad => "sad"
  | anxious => "anxious"
  | angry => "angry"
  | calm => "calm"
  | confused => "confused"
  end.

Definition moodKeys : list string :=
  map moodKey [happy; sad; anxious; angry; calm; confused].

Inductive ResponseCategory : Type :=
| LowMood
| Anxious
| Stressed
| GenericFallback
| PositiveAffect
| CalmAffect
| Acknowledgment.

(** The reply texts of a category in a language, in the order of the
    tables. *)
Definition variants (c : ResponseCategory) (l : Language) : list string :=
  match c with
  | LowMood => depression mentalHealthResponses l
  | Anxious => anxiety mentalHealthResponses l
  | Stressed => stress mentalHealthResponses l
  | GenericFallback => genericResponses l
  | PositiveAffect => [happyResponse l]
  | CalmAffect => [calmResponse l]
  | Acknowledgment => [defaultResponse l]
  end.

(** The mood response rule, in the specification's words. *)
Definition moodCategory (m : MoodLabel) : ResponseCategory :=
  match m with
  | sad => LowMood
  | anxious => Anxious
  | angry => Stressed
  | happy => PositiveAffect
  | calm => CalmAffect
  | confused => Acknowledgment
  end.

(** The keyword lists of the three groups, over all languages. *)
Definition lowMoodKeywords : list string :=
  [ "sad"; "depressed"; "down"; "उदास"; "दुखी"; "ದುಃಖ" ].

Definition anxiousKeywords : list string :=
  [ "anxious"; "worried"; "panic"; "चिंतित"; "चिंताग्रस्त"; "ಆತಂಕ" ].

Definition stressedKeywords : list string :=
  [ "stress"; "overwhelmed"; "pressure"; "तनाव"; "तणाव"; "ಒತ್ತಡ" ].

Definition keywords : list string :=
  (lowMoodKeywords ++ anxiousKeywords ++ stressedKeywords)%list.

(** A text matches a keyword when its lower-cased form includes it. *)
Definition matches (rawText keyword : string) : bool :=
  JSString.includes (JSString.toLowerCase rawText) keyword.

(** Classification in the specification's words: the first group, in the
    order low-mood, anxious, stressed, one of whose keywords matches. *)
Definition classify (rawText : string) : ResponseCategory :=
  if existsb (matches rawText) lowMoodKeywords then LowMood
  else if existsb (matches rawText) anxiousKeywords then Anxious
  else if existsb (matches rawText) stressedKeywords then Stressed
  else GenericFallback.

(** Two texts are equal up to the case of their ASCII letters. *)
Definition caseVariant (a b : ascii) : bool :=
  let m := N_of_ascii a in
  let n := N_of_ascii b in
  ((m =? n)
   || ((65 <=? m) && (m <=? 90) && (n =? m + 32))
   || ((65 <=? n) && (n <=? 90) && (m =? n + 32)))%N.

Fixpoint equalUpToCase (s t : string) : bool :=
  match s, t with
  | EmptyString, EmptyString => true
  | String a s', String b t' => caseVariant a b && equalUpToCase s' t'
  | _, _ => false
  end.


(** *** The user interface

    The mood buttons, one per key of [moodLabels], are rendered while
    [showMoodSelector] holds; the other controls are always there. *)

Inductive Event : Type :=
| ClickMood (now1 now2 : string) (m : MoodLabel)
| ChangeInput (v : string)
| ClickSend (now1 now2 : string) (rnd : Q)
| ChangeLanguage (l : Language).

Definition fire (e : Event) (st : State) : option State :=
  match e with
  | ClickMood now1 now2 m =>
      if showMoodSelector st
      then Some (handleMoodSelection now1 now2 (moodKey m) st)
      else None
  | ChangeInput v => Some (setInputValue v st)
  | ClickSend now1 now2 rnd => Some (handleSendMessage now1 now2 rnd st)
  | ChangeLanguage l => Some (setCurrentLanguage l st)
  end.

Fixpoint interact (events : list Event) (st : State) : option State :=
  match events with
  | [] => Some st
  | e :: events' =>
      match fire e st with
      | Some st' => interact events' st'
      | None => None
      end
  end.

Fixpoint moodClicks (events : list Event) : list string :=
  match events with
  | [] => []
  | ClickMood _ _ m :: events' => moodKey m :: moodClicks events'
  | _ :: events' => moodClicks events'
  end.

(** *** The rest of the component *)

(** [handleKeyPress]: the Enter key sends what the input field holds. *)
Definition handleKeyPress (key : string) (now1 now2 : string) (rnd : Q)
    (st : State) : State :=
  if String.eqb key "Enter" then handleSendMessage now1 now2 rnd st else st.

(** A key press in the input field, with the ambient inputs of its
    handler. *)
Record KeyPress : Type :=
  { pressedKey : string;
    pressNow1 : string;
    pressNow2 : string;
    pressRnd : Q }.

Definition isEnter (p : KeyPress) : bool := String.eqb (pressedKey p) "Enter".

(** Key presses in a row, the field's [onChange] not firing in between. *)
Definition pressAll (presses : list KeyPress) (st : State) : State :=
  fold_left
    (fun st p =>
       handleKeyPress (pressedKey p) (pressNow1 p) (pressNow2 p) (pressRnd p) st)
    presses st.

(** [Object.keys(o)] of an object literal with string keys. *)
Definition keys (o : list (string * string)) : list string := map fst o.

(** The text of a JSX child [{v}]: [undefined] renders nothing. *)
Definition jsxText (v : value) : string :=
  match v with
  | undefined => ""
  | str s => s
  end.

(** The mood buttons of the rendered component, each with the mood its
    click passes to [handleMoodSelection] and with its text. *)
Definition moodButtons (st : State) : list (string * string) :=
  if showMoodSelector st then
    map (fun mood =>
           (mood,
            getMoodEmoji mood ++ " "
              ++ jsxText (getProperty (moodLabels (translations (currentLanguage st)))
                            mood)))
        (keys (moodLabels (translations (currentLanguage st))))
  else [].

(** A text made of white space characters only. *)
Fixpoint joinAll (ws : list string) : string :=
  match ws with
  | [] => ""
  | w :: ws' => w ++ joinAll ws'
  end.

Definition whiteSpaceRun (s : string) : Prop :=
  exists ws, Forall (fun w => In w JSString.whiteSpace) ws /\ s = joinAll ws.

(** A turn whose text is a string that trimming does not empty. *)
Definition spoken (m : Message) : Prop :=
  exists s, text m = str s /\ JSString.trim s <> "".

(** The random number of the operation, if it takes one, is one that
    [Math.random()] returns. *)
Definition drawsInRange (op : Operation) : Prop :=
  match op with
  | SendMessage _ _ rnd _ => (0 <= rnd)%Q /\ (rnd < 1)%Q
  | _ => True
  end.

(** The mood prompt is shown exactly while no mood is recorded. *)
Definition promptMatchesMood (st : State) : Prop :=
  showMoodSelector st = match userMood st with
                        | None => true
                        | Some _ => false
                        end.

(** *** Bytes of the white space characters and of the keywords *)

Fixpoint allBytes (P : ascii -> bool) (s : string) : bool :=
  match s with
  | EmptyString => true
  | String c s' => P c && allBytes P s'
  end.

Definition memByte (bs : list ascii) (c : ascii) : bool :=
  existsb (Ascii.eqb c) bs.

Definition whiteSpaceBytes : list ascii :=
  flat_map list_ascii_of_string JSString.whiteSpace.

Definition whiteSpaceLeads : list ascii :=
  flat_map (fun w => match w with
                     | EmptyString => []
                     | String c _ => [c]
                     end) JSString.whiteSpace.

(** A keyword that white space cannot touch: it is not empty, it does not
    start with a byte of a white space character and it holds no first byte
    of one. *)
Definition keywordSafe (k : string) : bool :=
  match k with
  | EmptyString => false
  | String a _ =>
      negb (memByte whiteSpaceBytes a)
      && allBytes (fun c => negb (memByte whiteSpaceLeads c)) k
  end.

(** What [trimEnd] cuts off: white space bytes, starting as a white space
    character does. *)
Definition wsTail (r : string) : Prop :=
  allBytes (memByte whiteSpaceBytes) r = true
  /\ match r with
     | EmptyString => True
     | String c _ => In c whiteSpaceLeads
     end.

(** The transcript has an odd number of turns and ends with a bot turn. *)
Definition botTerminated (ms : list Message) : Prop :=
  Nat.odd (List.length ms) = true /\ last (map sender ms) user = bot.

(** ** Properties *)

(** *** Strings *)

Section StringFacts.

Import JSString.

Lemma append_assoc (a b c : string) : (a ++ b) ++ c = a ++ (b ++ c).
Proof. induction a as [|x a IH]; simpl; [reflexivity | now rewrite IH]. Qed.

Lemma append_empty_r (a : string) : a ++ "" = a.
Proof. induction a as [|x a IH]; simpl; [reflexivity | now rewrite IH]. Qed.

Lemma length_append (a b : string) :
  String.length (a ++ b) = (String.length a + String.length b)%nat.
Proof. induction a as [|x a IH]; simpl; [reflexivity | now rewrite IH]. Qed.

Lemma allBytes_append P (a b : string) :
  allBytes P (a ++ b) = allBytes P a && allBytes P b.
Proof.
  induction a as [|x a IH]; simpl; [reflexivity|].
  now rewrite IH, andb_assoc.
Qed.

Lemma memByte_In bs c : memByte bs c = true <-> In c bs.
Proof.
  unfold memByte. rewrite existsb_exists. split.
  - intros [x [Hx Heq]]. apply Ascii.eqb_eq in Heq. now subst.
  - intros H. exists c. split; [assumption | apply Ascii.eqb_refl].
Qed.

Lemma dropPrefix_append p s r : dropPrefix p s = Some r -> s = p ++ r.
Proof.
  revert s. induction p as [|a p IH]; intros s H; simpl in *.
  - now inversion H.
  - destruct s as [|b s]; [discriminate|].
    destruct (Ascii.eqb_spec a b) as [->|]; [|discriminate].
    now rewrite (IH _ H).
Qed.

Lemma dropOneOf_append ps s r :
  dropOneOf ps s = Some r -> exists p, In p ps /\ s = p ++ r.
Proof.
  induction ps as [|p ps IH]; simpl; [discriminate|].
  destruct (dropPrefix p s) as [r'|] eqn:E.
  - intros H. inversion H; subst. exists p. split; [now left|].
    now apply dropPrefix_append.
  - intros H. destruct (IH H) as [q [Hq Hs]]. exists q. split; [now right|assumption].
Qed.

Lemma whiteSpace_nonempty p : In p whiteSpace -> (0 < String.length p)%nat.
Proof.
  intros H.
  assert (A : forallb (fun w => Nat.ltb 0 (String.length w)) whiteSpace = true)
    by reflexivity.
  rewrite forallb_forall in A. apply Nat.ltb_lt. now apply A.
Qed.

Lemma whiteSpace_bytes p :
  In p whiteSpace -> allBytes (memByte whiteSpaceBytes) p = true.
Proof.
  intros H.
  assert (A : forallb (allBytes (memByte whiteSpaceBytes)) whiteSpace = true)
    by reflexivity.
  rewrite forallb_forall in A. now apply A.
Qed.

Lemma whiteSpace_lead c p :
  In (String c p) whiteSpace -> In c whiteSpaceLeads.
Proof.
  intros H. unfold whiteSpaceLeads. apply in_flat_map.
  exists (String c p). split; [assumption | now left].
Qed.

Lemma whiteSpaceBytes_lower c :
  memByte whiteSpaceBytes c = true -> lowerChar c = c.
Proof.
  intros H. apply memByte_In in H.
  assert (A : forallb (fun b => Ascii.eqb (lowerChar b) b) whiteSpaceBytes = true)
    by reflexivity.
  rewrite forallb_forall in A. apply Ascii.eqb_eq. now apply A.
Qed.

(** [trimStart] removes a run of white space bytes, and all of it. *)
Lemma trimStartLoop_split fuel s :
  exists l, s = l ++ trimStartLoop fuel s
            /\ allBytes (memByte whiteSpaceBytes) l = true.
Proof.
  revert s. induction fuel as [|fuel IH]; intros s; cbn [trimStartLoop].
  - now exists "".
  - destruct (dropOneOf whiteSpace s) as [r|] eqn:E; [|now exists ""].
    destruct (dropOneOf_append _ _ _ E) as [p [Hp Hs]].
    destruct (IH r) as [l [Hl Hb]].
    exists (p ++ l). rewrite append_assoc, <- Hl. split; [assumption|].
    now rewrite allBytes_append, (whiteSpace_bytes _ Hp), Hb.
Qed.

Lemma trimStartLoop_done fuel s :
  (String.length s <= fuel)%nat ->
  dropOneOf whiteSpace (trimStartLoop fuel s) = None.
Proof.
  revert s. induction fuel as [|fuel IH]; intros s H; cbn [trimStartLoop].
  - destruct s; [reflexivity | simpl in H; lia].
  - destruct (dropOneOf whiteSpace s) as [r|] eqn:E; [|assumption].
    apply IH.
    destruct (dropOneOf_append _ _ _ E) as [p [Hp Hs]].
    pose proof (whiteSpace_nonempty _ Hp) as Hlen.
    subst s. rewrite length_append in H. lia.
Qed.

Lemma trimStart_done s : dropOneOf whiteSpace (trimStart s) = None.
Proof. apply trimStartLoop_done. apply Nat.le_refl. Qed.

Lemma trimStart_split s :
  exists l, s = l ++ trimStart s /\ allBytes (memByte whiteSpaceBytes) l = true.
Proof. apply trimStartLoop_split. Qed.

Lemma isWhiteSpaceOnly_tail r : isWhiteSpaceOnly r = true -> wsTail r.
Proof.
  unfold isWhiteSpaceOnly. intros H. apply String.eqb_eq in H. split.
  - destruct (trimStart_split r) as [l [Hl Hb]].
    rewrite H, append_empty_r in Hl. now subst l.
  - destruct r as [|c r]; [exact I|].
    unfold trimStart in H. simpl String.length in H.
    cbn [trimStartLoop] in H.
    destruct (dropOneOf whiteSpace (String c r)) as [r'|] eqn:E; [|discriminate].
    destruct (dropOneOf_append _ _ _ E) as [p [Hp Hs]].
    pose proof (whiteSpace_nonempty _ Hp) as Hlen.
    destruct p as [|c' p]; [simpl in Hlen; lia|].
    simpl in Hs. inversion Hs; subst c'.
    now apply whiteSpace_lead with p.
Qed.

Lemma trimEnd_split s : exists r, s = trimEnd s ++ r /\ wsTail r.
Proof.
  induction s as [|c s IH].
  - exists "". repeat split.
  - cbn [trimEnd].
    destruct (isWhiteSpaceOnly (String c s)) eqn:E.
    + exists (String c s). split; [reflexivity|].
      now apply isWhiteSpaceOnly_tail.
    + destruct IH as [r [Hr Ht]]. exists r. split; [|assumption].
      simpl. now rewrite <- Hr.
Qed.

Lemma trim_split s :
  exists l r, s = l ++ trim s ++ r
              /\ allBytes (memByte whiteSpaceBytes) l = true /\ wsTail r.
Proof.
  destruct (trimStart_split s) as [l [Hl Hb]].
  destruct (trimEnd_split (trimStart s)) as [r [Hr Ht]].
  exists l, r. unfold trim. now rewrite <- Hr.
Qed.

Lemma toLowerCase_append a b :
  toLowerCase (a ++ b) = toLowerCase a ++ toLowerCase b.
Proof. induction a as [|x a IH]; simpl; [reflexivity | now rewrite IH]. Qed.

Lemma toLowerCase_whiteSpace l :
  allBytes (memByte whiteSpaceBytes) l = true -> toLowerCase l = l.
Proof.
  induction l as [|c l IH]; cbn [allBytes toLowerCase]; [reflexivity|].
  intros H. apply andb_prop in H as [Hc Hl].
  now rewrite (whiteSpaceBytes_lower _ Hc), (IH Hl).
Qed.



(** Bytes that differ from the keyword's first byte can be skipped. *)
Lemma includes_skip l y a k :
  allBytes (fun c => negb (Ascii.eqb a c)) l = true ->
  includes (l ++ y) (String a k) = includes y (String a k).
Proof.
  induction l as [|c l IH]; intros H; [reflexivity|].
  simpl in H. apply andb_prop in H as [Hc Hl].
  apply negb_true_iff, Ascii.eqb_neq in Hc.
  change (String c l ++ y) with (String c (l ++ y)).
  cbn [includes prefix].
  destruct (ascii_dec a c) as [e|_]; [contradiction|].
  now rewrite (IH Hl).
Qed.

(** A prefix test does not look into a tail whose first byte the keyword
    does not hold. *)
Lemma prefix_tail k y r :
  match r with
  | EmptyString => True
  | String c _ => allBytes (fun b => negb (Ascii.eqb b c)) k = true
  end ->
  prefix k (y ++ r) = prefix k y.
Proof.
  revert y. induction k as [|a k IH]; intros y H.
  - destruct y, r; reflexivity.
  - destruct y as [|b y].
    + destruct r as [|c r]; [reflexivity|].
      simpl in H. apply andb_prop in H as [Hc _].
      apply negb_true_iff, Ascii.eqb_neq in Hc.
      simpl. now destruct (ascii_dec a c).
    + change (String b y ++ r) with (String b (y ++ r)).
      cbn [prefix]. destruct (ascii_dec a b); [|reflexivity].
      apply IH. destruct r as [|c r]; [exact I|].
      simpl in H. now apply andb_prop in H as [_ Hk].
Qed.

Lemma includes_tail x r a k :
  allBytes (fun c => negb (Ascii.eqb a c)) r = true ->
  match r with
  | EmptyString => True
  | String c _ => allBytes (fun b => negb (Ascii.eqb b c)) (String a k) = true
  end ->
  includes (x ++ r) (String a k) = includes x (String a k).
Proof.
  intros Hr Hc. induction x as [|b x IH].
  - rewrite <- (append_empty_r r) at 1. change ("" ++ (r ++ "")) with (r ++ "").
    now apply includes_skip.
  - change (String b x ++ r) with (String b (x ++ r)).
    cbn [includes]. rewrite IH.
    change (String b (x ++ r)) with (String b x ++ r).
    now rewrite prefix_tail.
Qed.

Lemma keywordSafe_left a k l :
  keywordSafe (String a k) = true ->
  allBytes (memByte whiteSpaceBytes) l = true ->
  allBytes (fun c => negb (Ascii.eqb a c)) l = true.
Proof.
  intros Hk. unfold keywordSafe in Hk. apply andb_prop in Hk as [Ha _].
  apply negb_true_iff in Ha.
  induction l as [|c l IH]; cbn [allBytes]; [reflexivity|].
  intros H. apply andb_prop in H as [Hc Hl]. rewrite (IH Hl), andb_true_r.
  apply negb_true_iff, Ascii.eqb_neq. intros ->. congruence.
Qed.

Lemma keywordSafe_right k c :
  allBytes (fun b => negb (memByte whiteSpaceLeads b)) k = true ->
  In c whiteSpaceLeads ->
  allBytes (fun b => negb (Ascii.eqb b c)) k = true.
Proof.
  intros Hk Hc. induction k as [|b k IH]; [reflexivity|].
  cbn [allBytes] in Hk |- *. apply andb_prop in Hk as [Hb Hk].
  rewrite (IH Hk), andb_true_r.
  apply negb_true_iff, Ascii.eqb_neq. intros ->.
  apply negb_true_iff in Hb. apply memByte_In in Hc. congruence.
Qed.

(** Trimming does not change which keywords a text matches. *)
Lemma matches_trim rawText k :
  keywordSafe k = true -> matches (trim rawText) k = matches rawText k.
Proof.
  intros Hk. unfold matches.
  destruct (trim_split rawText) as [l [r [Hs [Hl [Hr Hc]]]]].
  rewrite Hs at 2.
  rewrite !toLowerCase_append, (toLowerCase_whiteSpace _ Hl),
    (toLowerCase_whiteSpace _ Hr).
  destruct k as [|a k]; [discriminate|].
  rewrite (includes_skip l _ a k (keywordSafe_left _ _ _ Hk Hl)).
  symmetry. apply includes_tail.
  - now apply keywordSafe_left with k.
  - destruct r as [|c r]; [exact I|].
    apply keywordSafe_right; [|assumption].
    unfold keywordSafe in Hk. now apply andb_prop in Hk as [_ Hk].
Qed.

Lemma keywords_safe k : In k keywords -> keywordSafe k = true.
Proof.
  intros H.
  assert (A : forallb keywordSafe keywords = true) by reflexivity.
  rewrite forallb_forall in A. now apply A.
Qed.

End StringFacts.

(** *** The random index *)

Section RandomIndex.

Open Scope Q_scope.


Lemma inject_nat_pos n : (0 < n)%nat -> 0 < inject_Z (Z.of_nat n).
Proof.
  intros H. change 0 with (inject_Z 0). rewrite <- Zlt_Qlt. lia.
Qed.



Lemma floorTimes_range rnd n :
  0 <= rnd -> rnd < 1 -> (0 < n)%nat ->
  (0 <= floorTimes rnd n < Z.of_nat n)%Z.
Proof.
  intros Hlo Hhi Hn. pose proof (inject_nat_pos n Hn) as HN.
  unfold floorTimes. split.
  - rewrite <- (Qfloor_Z 0). apply Qfloor_resp_le.
    change (inject_Z 0) with 0. apply Qmult_le_0_compat; [assumption|].
    now apply Qlt_le_weak.
  - rewrite Zlt_Qlt.
    apply Qle_lt_trans with (rnd * inject_Z (Z.of_nat n)); [apply Qfloor_le|].
    rewrite <- (Qmult_1_l (inject_Z (Z.of_nat n))) at 2.
    now apply Qmult_lt_r.
Qed.

(** Indexing with the drawn index always finds a variant. *)
Lemma index_floorTimes rnd (arr : list string) :
  0 <= rnd -> rnd < 1 -> (0 < List.length arr)%nat ->
  exists i reply,
    floorTimes rnd (List.length arr) = Z.of_nat i
    /\ nth_error arr i = Some reply
    /\ index arr (floorTimes rnd (List.length arr)) = str reply.
Proof.
  intros Hlo Hhi Hn.
  destruct (floorTimes_range rnd _ Hlo Hhi Hn) as [H0 H1].
  exists (Z.to_nat (floorTimes rnd (List.length arr))).
  destruct (nth_error arr (Z.to_nat (floorTimes rnd (List.length arr))))
    as [reply|] eqn:E.
  - exists reply. unfold index. rewrite E.
    apply Z.ltb_ge in H0. rewrite H0.
    split; [now rewrite Z2Nat.id by now apply Z.ltb_ge | now split].
  - apply nth_error_None in E. lia.
Qed.

End RandomIndex.

(** *** The reply generators *)

Lemma variants_nonempty c l : (0 < List.length (variants c l))%nat.
Proof. destruct c, l; simpl; lia. Qed.

(** The branches of [generateBotResponse] are the classification of the
    specification: the reply is drawn from the variants of the category the
    text classifies to. *)
Lemma generateBotResponse_classify now rnd l userMessage :
  generateBotResponse now rnd l userMessage
  = {| text := index (variants (classify userMessage) l)
                 (floorTimes rnd (List.length (variants (classify userMessage) l)));
       sender := bot;
       timestamp := now |}.
Proof.
  unfold generateBotResponse, classify.
  cbn [existsb lowMoodKeywords anxiousKeywords stressedKeywords].
  rewrite !orb_false_r, !orb_assoc. unfold matches.
  destruct (_ || _ || _ || _ || _ || _); [reflexivity|].
  destruct (_ || _ || _ || _ || _ || _); [reflexivity|].
  destruct (_ || _ || _ || _ || _ || _); reflexivity.
Qed.

Lemma classify_trim rawText : classify (JSString.trim rawText) = classify rawText.
Proof.
  assert (E : forall ks, incl ks keywords ->
            existsb (matches (JSString.trim rawText)) ks
            = existsb (matches rawText) ks).
  { induction ks as [|k ks IH]; intros Hin; [reflexivity|].
    cbn [existsb]. rewrite IH by (intros x Hx; apply Hin; now right).
    rewrite matches_trim; [reflexivity|].
    apply keywords_safe, Hin. now left. }
  unfold classify, keywords.
  rewrite !E; [reflexivity | | |]; intros k Hk; apply in_or_app.
  - right. apply in_or_app. now right.
  - right. apply in_or_app. now left.
  - now left.
Qed.

(** *** The handlers *)

Lemma sendMessage_blank now1 now2 rnd rawText st :
  JSString.trim rawText = "" ->
  sendMessage now1 now2 rnd rawText st = setInputValue rawText st.
Proof.
  intros H. unfold sendMessage, handleSendMessage.
  cbn [inputValue setInputValue]. now rewrite H.
Qed.

Lemma sendMessage_text now1 now2 rnd rawText st :
  JSString.trim rawText <> "" ->
  sendMessage now1 now2 rnd rawText st
  = {| messages :=
         (messages st
            ++ [ {| text := str rawText; sender := user; timestamp := now1 |};
                 generateBotResponse now2 rnd (currentLanguage st) rawText ])%list;
       inputValue := "";
       currentLanguage := currentLanguage st;
       userMood := userMood st;
       showMoodSelector := showMoodSelector st |}.
Proof.
  intros H. unfold sendMessage, handleSendMessage.
  cbn [inputValue setInputValue].
  apply String.eqb_neq in H. now rewrite H.
Qed.

Lemma sendMessage_messages now1 now2 rnd rawText st :
  exists added,
    messages (sendMessage now1 now2 rnd rawText st) = (messages st ++ added)%list
    /\ map sender added = expectedSenders (SendMessage now1 now2 rnd rawText).
Proof.
  cbn [expectedSenders].
  destruct (String.eqb_spec (JSString.trim rawText) "") as [E|E].
  - exists []. rewrite (sendMessage_blank _ _ _ _ _ E).
    split; [symmetry; apply app_nil_r | reflexivity].
  - eexists. rewrite (sendMessage_text _ _ _ _ _ E).
    split; [reflexivity|]. now rewrite generateBotResponse_classify.
Qed.

Lemma sendMessage_frame now1 now2 rnd rawText st :
  currentLanguage (sendMessage now1 now2 rnd rawText st) = currentLanguage st
  /\ userMood (sendMessage now1 now2 rnd rawText st) = userMood st
  /\ showMoodSelector (sendMessage now1 now2 rnd rawText st) = showMoodSelector st.
Proof.
  destruct (String.eqb_spec (JSString.trim rawText) "") as [E|E].
  - rewrite (sendMessage_blank _ _ _ _ _ E). now repeat split.
  - rewrite (sendMessage_text _ _ _ _ _ E). now repeat split.
Qed.

Lemma handleSendMessage_frame now1 now2 rnd st :
  userMood (handleSendMessage now1 now2 rnd st) = userMood st
  /\ showMoodSelector (handleSendMessage now1 now2 rnd st) = showMoodSelector st.
Proof.
  unfold handleSendMessage.
  destruct (String.eqb _ _); now split.
Qed.

(** *** Mood selection *)

(** C1. For every mood [m] of the closed set and every session, whatever
    its language, [selectMood] appends exactly two turns, a user turn and
    then a bot turn, and the bot turn's text is the first entry of the
    variants of the category the mood maps to in the session's language:
    the first of the depression list for sad, of the anxiety list for
    anxious, of the stress list for angry, the one fixed text for happy,
    calm and confused.  Nothing is drawn at random, and selecting the same
    mood again in the same language gives the same reply text. *)
Theorem selectMood_reply :
  forall (now1 now2 now3 now4 : string) (m : MoodLabel) (st : State),
  exists reply u u',
    hd_error (variants (moodCategory m) (currentLanguage st)) = Some reply
    /\ sender u = user
    /\ sender u' = user
    /\ messages (selectMood now1 now2 (moodKey m) st)
       = (messages st
            ++ [ u; {| text := str reply; sender := bot; timestamp := now2 |} ])%list
    /\ messages (selectMood now3 now4 (moodKey m)
                   (selectMood now1 now2 (moodKey m) st))
       = (messages st
            ++ [ u; {| text := str reply; sender := bot; timestamp := now2 |};
                 u'; {| text := str reply; sender := bot; timestamp := now4 |} ])%list.
Proof.
  intros now1 now2 now3 now4 m [ms iv l um sh].
  unfold selectMood, handleMoodSelection, generateMoodResponse.
  cbn [currentLanguage messages setMessages setShowMoodSelector setUserMood].
  rewrite <- app_assoc. cbn [app].
  destruct m, l; do 3 eexists; repeat split; reflexivity.
Qed.

(** C4 as stated fails: a mood outside the closed set raises nothing.  For
    the mood ["bored"] the session gets a user turn made of the text of
    [undefined] and the default glyph, and a bot turn with the fallback
    acknowledgment. *)
Lemma selectMood_unknown_mood_degrades :
  messages (selectMood "10:00:01" "10:00:01" "bored" (initialize "10:00:00"))
  = [ {| text := str (greeting (translations english));
         sender := bot; timestamp := "10:00:00" |};
      {| text := str "undefined 😐"; sender := user; timestamp := "10:00:01" |};
      {| text := str (defaultResponse english);
         sender := bot; timestamp := "10:00:01" |} ]
  /\ userMood (selectMood "10:00:01" "10:00:01" "bored" (initialize "10:00:00"))
     = Some "bored".
Proof. split; reflexivity. Qed.

Lemma getProperty_missing o k :
  ~ In k (map fst o) -> getProperty o k = undefined.
Proof.
  induction o as [|[k' v] o IH]; intros H; [reflexivity|].
  cbn [getProperty]. destruct (String.eqb_spec k' k) as [->|_].
  - exfalso. apply H. now left.
  - apply IH. intros Hin. apply H. now right.
Qed.

Lemma moodLabels_keys l : map fst (moodLabels (translations l)) = moodKeys.
Proof. now destruct l. Qed.

(** C4, amended.  For a mood outside the closed set (and not the name of a
    property inherited from [Object.prototype]) [selectMood] does not fail:
    it records the mood, hides the mood prompt, and appends a user turn with
    the text ["undefined"], a space and the default glyph, then a bot turn
    with the fallback acknowledgment of the current language. *)
Theorem selectMood_unknown_mood :
  forall (now1 now2 : string) (mood : string) (st : State),
    ~ In mood moodKeys ->
    ~ In mood objectPrototypeProperties ->
    selectMood now1 now2 mood st
    = {| messages :=
           (messages st
              ++ [ {| text := str "undefined 😐"; sender := user; timestamp := now1 |};
                   {| text := str (defaultResponse (currentLanguage st));
                      sender := bot; timestamp := now2 |} ])%list;
         inputValue := inputValue st;
         currentLanguage := currentLanguage st;
         userMood := Some mood;
         showMoodSelector := false |}.
Proof.
  intros now1 now2 mood st Hm _.
  assert (Hne : forall k, In k moodKeys -> String.eqb mood k = false).
  { intros k Hk. apply String.eqb_neq. intros ->. contradiction. }
  unfold selectMood, handleMoodSelection, generateMoodResponse, getMoodEmoji.
  rewrite (getProperty_missing (moodLabels _)) by now rewrite moodLabels_keys.
  rewrite (getProperty_missing emojiMap) by exact Hm.
  rewrite !Hne by (cbn; tauto).
  reflexivity.
Qed.

Lemma selectMood_unknown_mood_witness :
  selectMood "10:00:01" "10:00:02" "tired" (initialize "10:00:00")
  = {| messages :=
         [ {| text := str (greeting (translations english));
              sender := bot; timestamp := "10:00:00" |};
           {| text := str "undefined 😐"; sender := user; timestamp := "10:00:01" |};
           {| text := str (defaultResponse english);
              sender := bot; timestamp := "10:00:02" |} ];
       inputValue := "";
       currentLanguage := english;
       userMood := Some "tired";
       showMoodSelector := false |}.
Proof.
  apply (selectMood_unknown_mood "10:00:01" "10:00:02" "tired"
           (initialize "10:00:00")).
  - cbn. intros H. repeat (destruct H as [H|H]; [discriminate|]). exact H.
  - cbn. intros H. repeat (destruct H as [H|H]; [discriminate|]). exact H.
Defined.

(** C3 as stated fails: a second mood selection replaces the recorded
    mood. *)
Lemma second_selectMood_overwrites :
  userMood (selectMood "10:00:01" "10:00:01" "sad" (initialize "10:00:00"))
  = Some "sad"
  /\ userMood (selectMood "10:00:05" "10:00:05" "happy"
                 (selectMood "10:00:01" "10:00:01" "sad" (initialize "10:00:00")))
     = Some "happy"
  /\ userMood (selectMood "10:00:05" "10:00:05" "happy"
                 (selectMood "10:00:01" "10:00:01" "sad" (initialize "10:00:00")))
     <> userMood (selectMood "10:00:01" "10:00:01" "sad" (initialize "10:00:00")).
Proof. cbn. repeat split. discriminate. Qed.

Lemma fire_frame e st st' :
  fire e st = Some st' ->
  showMoodSelector st = false ->
  showMoodSelector st' = false /\ userMood st' = userMood st
  /\ moodClicks [e] = [].
Proof.
  destruct e as [n1 n2 m|v|n1 n2 rnd|l]; cbn [fire moodClicks]; intros H Hs.
  - rewrite Hs in H. discriminate.
  - inversion H; subst. now repeat split.
  - inversion H; subst.
    destruct (handleSendMessage_frame n1 n2 rnd st) as [Hu Hm].
    rewrite Hu, Hm. now repeat split.
  - inversion H; subst. now repeat split.
Qed.

(** Once the mood prompt is hidden, no interaction selects a mood. *)
Lemma interact_hidden events : forall st,
  showMoodSelector st = false ->
  match interact events st with
  | Some st' => userMood st' = userMood st /\ moodClicks events = []
  | None => (1 <= List.length (moodClicks events))%nat
  end.
Proof.
  induction events as [|e events IH]; intros st Hs; [now split|].
  cbn [interact]. destruct (fire e st) as [st1|] eqn:E.
  - destruct (fire_frame _ _ _ E Hs) as [Hs1 [Hu1 Hc]].
    specialize (IH st1 Hs1). rewrite Hu1 in IH.
    change (e :: events) with ([e] ++ events)%list.
    destruct e; cbn [moodClicks app] in *; try discriminate; exact IH.
  - destruct e; cbn [fire] in E; try discriminate.
    cbn [moodClicks List.length]. lia.
Qed.

Lemma interact_prompting events : forall st,
  showMoodSelector st = true ->
  userMood st = None ->
  match interact events st with
  | Some st' =>
      userMood st' = hd_error (moodClicks events)
      /\ (List.length (moodClicks events) <= 1)%nat
  | None => (2 <= List.length (moodClicks events))%nat
  end.
Proof.
  induction events as [|e events IH]; intros st Hs Hu.
  - cbn. split; [assumption | lia].
  - cbn [interact]. destruct e as [n1 n2 m|v|n1 n2 rnd|l]; cbn [fire moodClicks].
    + rewrite Hs.
      pose proof (interact_hidden events
                    (handleMoodSelection n1 n2 (moodKey m) st) eq_refl) as H.
      destruct (interact events _) as [st'|].
      * destruct H as [H1 H2]. rewrite H1, H2. cbn. split; [reflexivity | lia].
      * cbn [List.length]. lia.
    + apply IH; assumption.
    + destruct (handleSendMessage_frame n1 n2 rnd st) as [Hu' Hs'].
      apply IH; congruence.
    + apply IH; assumption.
Qed.

(** C3, amended.  Every [selectMood] call sets the recorded mood to the mood
    it is given, so a later call with another mood replaces it.  Through the
    user interface, where the mood buttons are offered only while the mood
    prompt is pending, a session that can be played has at most one mood
    selection, and its recorded mood is that selection (none before it);
    a sequence of events with two mood clicks cannot be played. *)
Theorem recordedMood_last_call_and_single_click :
  (forall (now1 now2 mood : string) (st : State),
      userMood (selectMood now1 now2 mood st) = Some mood)
  /\ (forall (now : string) (events : list Event),
        match interact events (initialize now) with
        | Some st =>
            userMood st = hd_error (moodClicks events)
            /\ (List.length (moodClicks events) <= 1)%nat
        | None => (2 <= List.length (moodClicks events))%nat
        end).
Proof.
  split.
  - reflexivity.
  - intros now events. now apply interact_prompting.
Qed.

(** *** Sending a message *)

(** C5. When the trimmed text is empty, [sendMessage] appends no turn and
    leaves the transcript, the language, the recorded mood and the pending
    mood prompt as they were. *)
Theorem sendMessage_blank_noop :
  forall (now1 now2 : string) (rnd : Q) (rawText : string) (st : State),
    JSString.trim rawText = "" ->
    messages (sendMessage now1 now2 rnd rawText st) = messages st
    /\ currentLanguage (sendMessage now1 now2 rnd rawText st) = currentLanguage st
    /\ userMood (sendMessage now1 now2 rnd rawText st) = userMood st
    /\ showMoodSelector (sendMessage now1 now2 rnd rawText st) = showMoodSelector st.
Proof.
  intros now1 now2 rnd rawText st H.
  rewrite (sendMessage_blank _ _ _ _ _ H). now repeat split.
Qed.

Lemma sendMessage_blank_noop_witness :
  JSString.trim "   " = ""
  /\ messages (sendMessage "10:00:01" "10:00:01" (1 # 2) "   " (initialize "10:00:00"))
     = messages (initialize "10:00:00")
  /\ JSString.trim "" = ""
  /\ messages (sendMessage "10:00:01" "10:00:01" (1 # 2) "" (initialize "10:00:00"))
     = messages (initialize "10:00:00").
Proof.
  split; [reflexivity|]. split.
  - apply (sendMessage_blank_noop "10:00:01" "10:00:01" (1 # 2) "   "
             (initialize "10:00:00")). reflexivity.
  - split; [reflexivity|].
    apply (sendMessage_blank_noop "10:00:01" "10:00:01" (1 # 2) ""
             (initialize "10:00:00")). reflexivity.
Defined.

(** C8. When the trimmed text is not empty, [sendMessage] appends a user
    turn whose text is the raw text as given, leading and trailing white
    space included; the bot turn that follows is the reply to the trimmed
    text as well, which classifies as the raw text does. *)
Theorem sendMessage_keeps_rawText :
  forall (now1 now2 : string) (rnd : Q) (rawText : string) (st : State),
    JSString.trim rawText <> "" ->
    messages (sendMessage now1 now2 rnd rawText st)
    = (messages st
         ++ [ {| text := str rawText; sender := user; timestamp := now1 |};
              generateBotResponse now2 rnd (currentLanguage st)
                (JSString.trim rawText) ])%list
    /\ classify (JSString.trim rawText) = classify rawText.
Proof.
  intros now1 now2 rnd rawText st H.
  rewrite (sendMessage_text _ _ _ _ _ H). cbn [messages].
  rewrite !generateBotResponse_classify, classify_trim. now split.
Qed.

Lemma sendMessage_keeps_rawText_witness :
  messages (sendMessage "10:00:01" "10:00:02" (1 # 2) "  I am worried  "
              (initialize "10:00:00"))
  = [ {| text := str (greeting (translations english));
         sender := bot; timestamp := "10:00:00" |};
      {| text := str "  I am worried  "; sender := user; timestamp := "10:00:01" |};
      generateBotResponse "10:00:02" (1 # 2) english "I am worried" ]
  /\ classify "I am worried" = classify "  I am worried  ".
Proof.
  apply (sendMessage_keeps_rawText "10:00:01" "10:00:02" (1 # 2)
           "  I am worried  " (initialize "10:00:00")).
  vm_compute. discriminate.
Defined.





Example classify_sad_and_anxious :
  classify "I feel sad and anxious" = LowMood
  /\ classify "I am feeling very anxious today" = Anxious
  /\ classify "So much PRESSURE at work" = Stressed
  /\ classify "hello" = GenericFallback.
Proof. repeat split; reflexivity. Qed.

(** *** Letter case *)

Lemma caseVariant_lowerChar a b :
  caseVariant a b = true -> JSString.lowerChar a = JSString.lowerChar b.
Proof.
  unfold caseVariant, JSString.lowerChar, JSString.isUpper.
  pose proof (ascii_N_embedding a) as Ea.
  pose proof (ascii_N_embedding b) as Eb.
  remember (N_of_ascii a) as m eqn:Hm. remember (N_of_ascii b) as n eqn:Hn.
  rewrite <- Ea, <- Eb. clear. intros H.
  apply orb_prop in H as [H|H]; [apply orb_prop in H as [H|H]|].
  - apply N.eqb_eq in H. now subst.
  - apply andb_prop in H as [H Hn]. apply andb_prop in H as [H1 H2].
    apply N.eqb_eq in Hn. rewrite H1, H2. cbn [andb]. subst n.
    apply N.leb_le in H1.
    replace ((m + 32 <=? 90)%N) with false
      by (symmetry; apply N.leb_gt; lia).
    now rewrite andb_false_r.
  - apply andb_prop in H as [H Hm]. apply andb_prop in H as [H1 H2].
    apply N.eqb_eq in Hm. rewrite H1, H2. cbn [andb]. subst m.
    apply N.leb_le in H1.
    replace ((n + 32 <=? 90)%N) with false
      by (symmetry; apply N.leb_gt; lia).
    now rewrite andb_false_r.
Qed.

Lemma equalUpToCase_toLowerCase s : forall t,
  equalUpToCase s t = true -> JSString.toLowerCase s = JSString.toLowerCase t.
Proof.
  induction s as [|a s IH]; intros [|b t] H; try discriminate; [reflexivity|].
  cbn [equalUpToCase] in H. apply andb_prop in H as [Hc Hs].
  cbn [JSString.toLowerCase].
  now rewrite (caseVariant_lowerChar _ _ Hc), (IH _ Hs).
Qed.

(** C9. Two texts that are equal up to the case of their ASCII letters
    classify to the same category, and get the same reply for the same
    random number. *)
Theorem classification_ignores_case :
  forall (s t : string),
    equalUpToCase s t = true ->
    classify s = classify t
    /\ (forall (now : string) (rnd : Q) (l : Language),
           generateBotResponse now rnd l s = generateBotResponse now rnd l t).
Proof.
  intros s t H. apply equalUpToCase_toLowerCase in H.
  assert (Hc : classify s = classify t).
  { unfold classify, matches. now rewrite H. }
  split; [assumption|].
  intros now rnd l. now rewrite !generateBotResponse_classify, Hc.
Qed.

Lemma classification_ignores_case_witness :
  equalUpToCase "SAD" "Sad" = true
  /\ classify "SAD" = classify "Sad"
  /\ (forall (now : string) (rnd : Q) (l : Language),
         generateBotResponse now rnd l "SAD" = generateBotResponse now rnd l "Sad").
Proof.
  split; [reflexivity|].
  apply (classification_ignores_case "SAD" "Sad"). reflexivity.
Defined.

Example classify_sad_any_case :
  classify "SAD" = LowMood /\ classify "Sad" = LowMood /\ classify "sad" = LowMood.
Proof. repeat split; reflexivity. Qed.

(** *** Language *)

(** C7. [setLanguage] changes the current language and nothing else: the
    transcript, the recorded mood and the pending mood prompt are those of
    the session it was applied to; it is a total function of the language
    and the session. *)
Theorem setLanguage_frame :
  forall (l : Language) (st : State),
    currentLanguage (setLanguage l st) = l
    /\ messages (setLanguage l st) = messages st
    /\ userMood (setLanguage l st) = userMood st
    /\ showMoodSelector (setLanguage l st) = showMoodSelector st
    /\ inputValue (setLanguage l st) = inputValue st.
Proof. intros l st. now repeat split. Qed.

(** *** Sessions *)

Lemma perform_prompt op st :
  showMoodSelector (perform op st) = showMoodSelector st && negb (isSelectMood op).
Proof.
  destruct op as [n1 n2 mood|n1 n2 rnd raw|l]; cbn [perform isSelectMood negb].
  - now rewrite andb_false_r.
  - destruct (sendMessage_frame n1 n2 rnd raw st) as [_ [_ H]].
    now rewrite H, andb_true_r.
  - now rewrite andb_true_r.
Qed.

Lemma fold_perform_prompt ops : forall st,
  showMoodSelector (fold_left (fun st op => perform op st) ops st)
  = showMoodSelector st && forallb (fun op => negb (isSelectMood op)) ops.
Proof.
  induction ops as [|op ops IH]; intros st; cbn [fold_left forallb].
  - now rewrite andb_true_r.
  - now rewrite IH, perform_prompt, andb_assoc.
Qed.

(** C6. The mood prompt is pending right after [initialize]; an operation
    leaves it pending exactly when it was pending and the operation is not
    a mood selection, so it is not pending after any [selectMood] and no
    operation makes it pending again; after a sequence of operations it is
    pending exactly when none of them was a mood selection. *)
Theorem moodPrompt_pending_until_selectMood :
  (forall now : string, showMoodSelector (initialize now) = true)
  /\ (forall (now1 now2 mood : string) (st : State),
         showMoodSelector (selectMood now1 now2 mood st) = false)
  /\ (forall (op : Operation) (st : State),
         showMoodSelector (perform op st)
         = showMoodSelector st && negb (isSelectMood op))
  /\ (forall (now : string) (ops : list Operation),
         showMoodSelector (runSession now ops)
         = forallb (fun op => negb (isSelectMood op)) ops).
Proof.
  split; [reflexivity|]. split; [reflexivity|]. split; [apply perform_prompt|].
  intros now ops. unfold runSession. now rewrite fold_perform_prompt.
Qed.

Lemma perform_messages op st :
  exists added,
    messages (perform op st) = (messages st ++ added)%list
    /\ map sender added = expectedSenders op.
Proof.
  destruct op as [n1 n2 mood|n1 n2 rnd raw|l]; cbn [perform].
  - eexists. split; reflexivity.
  - apply sendMessage_messages.
  - exists []. split; [symmetry; apply app_nil_r | reflexivity].
Qed.

Lemma expectedSenders_cases op :
  expectedSenders op = [] \/ expectedSenders op = [user; bot].
Proof.
  destruct op; cbn [expectedSenders]; auto.
  destruct (String.eqb _ _); auto.
Qed.

Lemma perform_botTerminated op st :
  botTerminated (messages st) -> botTerminated (messages (perform op st)).
Proof.
  intros [Ho Hl].
  destruct (perform_messages op st) as [added [Hm Hs]]. rewrite Hm.
  destruct (expectedSenders_cases op) as [E|E]; rewrite E in Hs.
  - apply map_eq_nil in Hs. subst added. rewrite app_nil_r. now split.
  - destruct added as [|u [|b [|x added]]]; try discriminate.
    inversion Hs as [[Hu Hb]]. split.
    + rewrite length_app. cbn [List.length].
      replace (List.length (messages st) + 2)%nat
        with (S (S (List.length (messages st)))) by lia.
      now rewrite Nat.odd_succ_succ.
    + rewrite map_app. cbn [map]. rewrite Hu, Hb.
      change [user; bot] with ([user] ++ [bot])%list.
      now rewrite app_assoc, last_last.
Qed.

Lemma runSession_botTerminated now ops : botTerminated (messages (runSession now ops)).
Proof.
  unfold runSession.
  assert (H : botTerminated (messages (initialize now))) by (split; reflexivity).
  revert H. generalize (initialize now).
  induction ops as [|op ops IH]; intros st H; [assumption|].
  cbn [fold_left]. apply IH. now apply perform_botTerminated.
Qed.

(** C10. [initialize] gives a transcript of one turn, the bot's greeting.
    Every later operation keeps the turns that are there and appends none
    ([setLanguage], [sendMessage] on white space) or two, a user turn then a
    bot turn ([selectMood], [sendMessage] otherwise).  So after any sequence
    of operations the number of turns is odd and the last turn is the
    bot's. *)
Theorem transcript_grows_in_pairs :
  (forall now : string,
      messages (initialize now)
      = [ {| text := str (greeting (translations english));
             sender := bot; timestamp := now |} ])
  /\ (forall (op : Operation) (st : State),
         exists added,
           messages (perform op st) = (messages st ++ added)%list
           /\ map sender added = expectedSenders op)
  /\ (forall (now : string) (ops : list Operation),
         Nat.odd (List.length (messages (runSession now ops))) = true
         /\ last (map sender (messages (runSession now ops))) user = bot).
Proof.
  split; [reflexivity|]. split; [apply perform_messages|].
  apply runSession_botTerminated.
Qed.

(** *** A whole session *)

Example session_sad_then_anxious_then_hindi :
  map text
    (messages
       (runSession "10:00:00"
          [ SelectMood "10:00:05" "10:00:05" "sad";
            SendMessage "10:00:20" "10:00:20" (3 # 4) "I am feeling very anxious today";
            SetLanguage hindi;
            SendMessage "10:00:40" "10:00:40" (1 # 4) "hello" ]))
  = [ str (greeting (translations english));
      str "Sad 😢";
      index (depression mentalHealthResponses english) 0;
      str "I am feeling very anxious today";
      index (anxiety mentalHealthResponses english) 1;
      str "hello";
      index (genericResponses hindi) 0 ].
Proof. reflexivity. Qed.

(** ** More of the component *)

(** *** Sending and the input field *)

Lemma handleSendMessage_input_blank now1 now2 rnd st :
  JSString.trim (inputValue (handleSendMessage now1 now2 rnd st)) = "".
Proof.
  unfold handleSendMessage.
  destruct (String.eqb_spec (JSString.trim (inputValue st)) "") as [E|E];
    [assumption | reflexivity].
Qed.

(** X1. After the send handler the input field never holds a text that
    would be sent: it is emptied when a message went out and was blank
    otherwise.  So a second send with nothing typed in between changes
    nothing, whatever the clock and the random number. *)
Theorem handleSendMessage_sends_once :
  forall (now1 now2 now3 now4 : string) (rnd rnd' : Q) (st : State),
    JSString.trim (inputValue (handleSendMessage now1 now2 rnd st)) = ""
    /\ handleSendMessage now3 now4 rnd' (handleSendMessage now1 now2 rnd st)
       = handleSendMessage now1 now2 rnd st.
Proof.
  intros now1 now2 now3 now4 rnd rnd' st.
  pose proof (handleSendMessage_input_blank now1 now2 rnd st) as H.
  split; [assumption|].
  unfold handleSendMessage at 1. now rewrite H.
Qed.

Lemma handleKeyPress_sent key now1 now2 rnd st :
  JSString.trim (inputValue st) = "" -> handleKeyPress key now1 now2 rnd st = st.
Proof.
  intros H. unfold handleKeyPress, handleSendMessage. rewrite H.
  now destruct (String.eqb key "Enter").
Qed.

Lemma pressAll_sent presses : forall st,
  JSString.trim (inputValue st) = "" -> pressAll presses st = st.
Proof.
  induction presses as [|p presses IH]; intros st H; [reflexivity|].
  unfold pressAll in *. cbn [fold_left].
  rewrite (handleKeyPress_sent _ _ _ _ _ H). now apply IH.
Qed.

(** X2. Of a run of key presses in the input field only the first Enter
    counts: the outcome is that of the send handler at that press, and the
    state is untouched when no key of the run is Enter. *)
Theorem pressAll_first_enter :
  forall (presses : list KeyPress) (st : State),
    pressAll presses st
    = match find isEnter presses with
      | Some p => handleSendMessage (pressNow1 p) (pressNow2 p) (pressRnd p) st
      | None => st
      end.
Proof.
  induction presses as [|p presses IH]; intros st; [reflexivity|].
  cbn [find]. destruct (isEnter p) eqn:E.
  - unfold pressAll. cbn [fold_left]. fold (pressAll presses).
    unfold handleKeyPress. unfold isEnter in E. rewrite E.
    apply pressAll_sent.
    apply (handleSendMessage_input_blank (pressNow1 p) (pressNow2 p) (pressRnd p) st).
  - rewrite <- IH. unfold pressAll. cbn [fold_left].
    unfold handleKeyPress. unfold isEnter in E. now rewrite E.
Qed.

(** *** What the send handler drops *)

Section BlankInput.

Import JSString.

Lemma dropOneOf_whiteSpace w r :
  In w whiteSpace -> dropOneOf whiteSpace (w ++ r) = Some r.
Proof.
  intros H. cbv in H.
  repeat (destruct H as [H|H]; [subst w; reflexivity|]).
  contradiction.
Qed.

Lemma trimStartLoop_enough fuel : forall fuel' s,
  (String.length s <= fuel)%nat -> (String.length s <= fuel')%nat ->
  trimStartLoop fuel s = trimStartLoop fuel' s.
Proof.
  induction fuel as [|fuel IH]; intros fuel' s H H'.
  - destruct s; [|simpl in H; lia]. now destruct fuel'.
  - destruct fuel' as [|fuel'].
    + destruct s; [reflexivity | simpl in H'; lia].
    + cbn [trimStartLoop].
      destruct (dropOneOf whiteSpace s) as [r|] eqn:E; [|reflexivity].
      destruct (dropOneOf_append _ _ _ E) as [p [Hp Hs]].
      pose proof (whiteSpace_nonempty _ Hp) as Hlen.
      subst s. rewrite length_append in H, H'. apply IH; lia.
Qed.

Lemma trimStart_step s r :
  dropOneOf whiteSpace s = Some r -> trimStart s = trimStart r.
Proof.
  intros E. destruct (dropOneOf_append _ _ _ E) as [p [Hp Hs]].
  pose proof (whiteSpace_nonempty _ Hp) as Hlen.
  unfold trimStart.
  destruct (String.length s) as [|n] eqn:Hn.
  - subst s. rewrite length_append in Hn. lia.
  - cbn [trimStartLoop]. rewrite E.
    apply trimStartLoop_enough; [|apply Nat.le_refl].
    subst s. rewrite length_append in Hn. lia.
Qed.

Lemma trimStart_fixed s : dropOneOf whiteSpace s = None -> trimStart s = s.
Proof.
  intros E. unfold trimStart. destruct (String.length s); [reflexivity|].
  cbn [trimStartLoop]. now rewrite E.
Qed.

Lemma trimStart_joinAll ws :
  Forall (fun w => In w whiteSpace) ws -> trimStart (joinAll ws) = "".
Proof.
  induction 1 as [|w ws Hw _ IH]; [reflexivity|].
  cbn [joinAll]. now rewrite (trimStart_step _ _ (dropOneOf_whiteSpace w _ Hw)).
Qed.

Lemma trimStartLoop_run fuel : forall s,
  exists ws, Forall (fun w => In w whiteSpace) ws
             /\ s = joinAll ws ++ trimStartLoop fuel s.
Proof.
  induction fuel as [|fuel IH]; intros s; cbn [trimStartLoop].
  - exists []. now split.
  - destruct (dropOneOf whiteSpace s) as [r|] eqn:E; [|exists []; now split].
    destruct (dropOneOf_append _ _ _ E) as [p [Hp Hs]].
    destruct (IH r) as [ws [Hws Hr]].
    exists (p :: ws). split; [now constructor|].
    cbn [joinAll]. now rewrite append_assoc, <- Hr.
Qed.

Lemma trimEnd_empty s : trimEnd s = "" -> isWhiteSpaceOnly s = true.
Proof.
  destruct s as [|c s]; [reflexivity|]. cbn [trimEnd].
  now destruct (isWhiteSpaceOnly (String c s)).
Qed.

(** [trim] empties exactly the texts made of white space characters. *)
Lemma trim_empty_iff s : trim s = "" <-> whiteSpaceRun s.
Proof.
  split.
  - intros H. unfold trim in H. apply trimEnd_empty in H.
    unfold isWhiteSpaceOnly in H. apply String.eqb_eq in H.
    rewrite (trimStart_fixed _ (trimStart_done s)) in H.
    destruct (trimStartLoop_run (String.length s) s) as [ws [Hws Hs]].
    fold (trimStart s) in Hs. rewrite H, append_empty_r in Hs.
    now exists ws.
  - intros [ws [Hws ->]]. unfold trim. now rewrite (trimStart_joinAll _ Hws).
Qed.

End BlankInput.

(** X3. The send handler leaves the transcript as it is exactly when the
    input field holds white space characters only (none included): tabs,
    line ends, spaces, no-break spaces and the other space characters of
    Unicode, in any number and order. *)
Theorem handleSendMessage_drops_iff :
  forall (now1 now2 : string) (rnd : Q) (st : State),
    messages (handleSendMessage now1 now2 rnd st) = messages st
    <-> whiteSpaceRun (inputValue st).
Proof.
  intros now1 now2 rnd st. rewrite <- trim_empty_iff.
  unfold handleSendMessage.
  destruct (String.eqb_spec (JSString.trim (inputValue st)) "") as [E|E].
  - now split.
  - cbn [messages setInputValue setMessages]. split; [|contradiction].
    intros H. apply (f_equal (@List.length Message)) in H.
    rewrite length_app in H. cbn [List.length] in H. lia.
Qed.

(** *** Moods, glyphs and labels *)

(** X4. The glyph tells the mood: the six moods have six different glyphs,
    none of them the default one; a mood outside the six (and not the name
    of a property inherited from [Object.prototype]) gets the default
    glyph. *)
Theorem getMoodEmoji_glyphs :
  (forall m1 m2 : MoodLabel,
      getMoodEmoji (moodKey m1) = getMoodEmoji (moodKey m2) -> m1 = m2)
  /\ (forall m : MoodLabel, getMoodEmoji (moodKey m) <> "😐")
  /\ (forall mood : string,
         ~ In mood moodKeys -> ~ In mood objectPrototypeProperties ->
         getMoodEmoji mood = "😐").
Proof.
  split; [|split].
  - intros m1 m2 H. destruct m1, m2; try reflexivity; cbv in H; discriminate H.
  - intros m H. destruct m; cbv in H; discriminate H.
  - intros mood Hm _. unfold getMoodEmoji.
    now rewrite (getProperty_missing emojiMap) by exact Hm.
Qed.

(** X5. The user turn that a mood selection writes is the mood's label in
    the current language, a space and the mood's glyph; and in one language
    two selections write the same texts only when they select the same
    mood. *)
Theorem selectMood_user_turn :
  (forall (now1 now2 : string) (m : MoodLabel) (st : State),
      exists label,
        getProperty (moodLabels (translations (currentLanguage st))) (moodKey m)
        = str label
        /\ nth_error (messages (selectMood now1 now2 (moodKey m) st))
             (List.length (messages st))
           = Some {| text := str (label ++ " " ++ getMoodEmoji (moodKey m));
                     sender := user;
                     timestamp := now1 |})
  /\ (forall (now1 now2 now1' now2' : string) (m m' : MoodLabel) (st : State),
         map text (messages (selectMood now1 now2 (moodKey m) st))
         = map text (messages (selectMood now1' now2' (moodKey m') st)) ->
         m = m').
Proof.
  split.
  - intros now1 now2 m [ms iv l um sh].
    unfold selectMood, handleMoodSelection.
    cbn [currentLanguage messages setMessages setShowMoodSelector setUserMood].
    rewrite nth_error_app2 by apply Nat.le_refl. rewrite Nat.sub_diag.
    destruct m, l; eexists; split; reflexivity.
  - intros now1 now2 now1' now2' m m' [ms iv l um sh].
    unfold selectMood, handleMoodSelection.
    cbn [currentLanguage messages setMessages setShowMoodSelector setUserMood].
    rewrite !map_app. intros H. apply app_inv_head in H.
    cbn [map text] in H. inversion H as [[Hu Hb]]. clear H Hb.
    destruct l, m, m'; try reflexivity; cbv in Hu; discriminate Hu.
Qed.

(** X6. The mood buttons offered are those of the six moods, in the order
    of the tables and in every language, while the mood prompt is shown, and
    none otherwise; after a mood selection there is none. *)
Theorem moodButtons_closed_set :
  (forall st : State,
      map fst (moodButtons st) = if showMoodSelector st then moodKeys else [])
  /\ (forall (now1 now2 mood : string) (st : State),
         moodButtons (handleMoodSelection now1 now2 mood st) = []).
Proof.
  split.
  - intros [ms iv l um sh]. unfold moodButtons.
    cbn [showMoodSelector currentLanguage].
    destruct sh; [|reflexivity]. now destruct l.
  - reflexivity.
Qed.

(** X7. The mood reply is a text for every mood string and language, the
    tables holding a first variant in every language; and every mood other
    than sad, anxious, angry, happy and calm, the mood confused as any
    unknown one, gets the acknowledgment of the last branch. *)
Theorem generateMoodResponse_total :
  forall (now : string) (l : Language) (mood : string),
  exists reply,
    generateMoodResponse now l mood
    = {| text := str reply; sender := bot; timestamp := now |}
    /\ (~ In mood ["sad"; "anxious"; "angry"; "happy"; "calm"] ->
        reply = defaultResponse l).
Proof.
  intros now l mood. unfold generateMoodResponse.
  destruct (String.eqb_spec mood "sad") as [->|H1].
  { destruct l; eexists; (split; [reflexivity|]); intros H; exfalso; apply H;
      cbn; tauto. }
  destruct (String.eqb_spec mood "anxious") as [->|H2].
  { destruct l; eexists; (split; [reflexivity|]); intros H; exfalso; apply H;
      cbn; tauto. }
  destruct (String.eqb_spec mood "angry") as [->|H3].
  { destruct l; eexists; (split; [reflexivity|]); intros H; exfalso; apply H;
      cbn; tauto. }
  destruct (String.eqb_spec mood "happy") as [->|H4].
  { eexists; (split; [reflexivity|]); intros H; exfalso; apply H; cbn; tauto. }
  destruct (String.eqb_spec mood "calm") as [->|H5].
  { eexists; (split; [reflexivity|]); intros H; exfalso; apply H; cbn; tauto. }
  eexists. split; reflexivity.
Qed.

(** *** Keywords inside a text *)






(** *** Drawing a variant *)

Lemma floorTimes_one rnd :
  (0 <= rnd)%Q -> (rnd < 1)%Q -> floorTimes rnd 1 = 0%Z.
Proof.
  intros Hlo Hhi.
  pose proof (floorTimes_range rnd 1 Hlo Hhi (Nat.lt_0_succ 0)). lia.
Qed.

(** X9. In Hindi, Marathi and Kannada a text that matches a keyword gets
    the one variant of its category, whatever the random number; it is the
    text a mood selection of that category is answered with.  Only English
    has variants to draw from. *)
Theorem generateBotResponse_single_variant :
  forall (now now' : string) (rnd : Q) (l : Language) (userMessage : string)
         (m : MoodLabel),
    l <> english ->
    (0 <= rnd)%Q ->
    (rnd < 1)%Q ->
    moodCategory m = classify userMessage ->
    text (generateBotResponse now rnd l userMessage)
    = text (generateMoodResponse now' l (moodKey m))
    /\ exists reply,
         variants (classify userMessage) l = [reply]
         /\ text (generateBotResponse now rnd l userMessage) = str reply.
Proof.
  intros now now' rnd l userMessage m Hl Hlo Hhi Hc.
  rewrite generateBotResponse_classify, <- Hc. cbn [text].
  destruct l; [contradiction | | |];
    destruct m; cbn [moodCategory variants];
    (replace (floorTimes rnd _) with 0%Z
       by (symmetry; exact (floorTimes_one _ Hlo Hhi)));
    (split; [reflexivity | eexists; split; reflexivity]).
Qed.

Lemma generateBotResponse_single_variant_witness :
  text (generateBotResponse "10:00:02" (3 # 4) hindi "I am so worried")
  = text (generateMoodResponse "10:00:01" hindi (moodKey anxious))
  /\ exists reply,
       variants (classify "I am so worried") hindi = [reply]
       /\ text (generateBotResponse "10:00:02" (3 # 4) hindi "I am so worried")
          = str reply.
Proof.
  apply (generateBotResponse_single_variant "10:00:02" "10:00:01" (3 # 4) hindi
           "I am so worried" anxious).
  - discriminate.
  - vm_compute. discriminate.
  - reflexivity.
  - reflexivity.
Defined.




(** *** What every transcript keeps *)

Lemma variants_spoken c l reply :
  In reply (variants c l) -> JSString.trim reply <> "".
Proof.
  intros H.
  assert (A : forallb (fun s => negb (String.eqb (JSString.trim s) ""))
                (variants c l) = true)
    by (destruct c, l; vm_compute; reflexivity).
  rewrite forallb_forall in A. specialize (A _ H).
  apply negb_true_iff in A. now apply String.eqb_neq.
Qed.

Lemma generateMoodResponse_spoken now l mood :
  spoken (generateMoodResponse now l mood).
Proof.
  unfold spoken, generateMoodResponse. cbn [text].
  destruct (String.eqb mood "sad");
    [|destruct (String.eqb mood "anxious");
      [|destruct (String.eqb mood "angry");
        [|destruct (String.eqb mood "happy");
          [|destruct (String.eqb mood "calm")]]]];
    destruct l; eexists; (split; [reflexivity | vm_compute; discriminate]).
Qed.

Lemma moodMessage_spoken l mood :
  JSString.trim
    (toString (getProperty (moodLabels (translations l)) mood)
       ++ " " ++ getMoodEmoji mood) <> "".
Proof.
  destruct (in_dec string_dec mood moodKeys) as [Hin|Hout].
  - cbv in Hin.
    repeat (destruct Hin as [Hin|Hin];
            [subst mood; destruct l; vm_compute; discriminate|]).
    contradiction.
  - unfold getMoodEmoji.
    rewrite (getProperty_missing (moodLabels _)) by now rewrite moodLabels_keys.
    rewrite (getProperty_missing emojiMap) by exact Hout.
    vm_compute. discriminate.
Qed.

Lemma perform_spoken op st :
  drawsInRange op ->
  Forall spoken (messages st) -> Forall spoken (messages (perform op st)).
Proof.
  intros Hr Hs. destruct op as [n1 n2 mood|n1 n2 rnd raw|l]; cbn [perform].
  - unfold selectMood, handleMoodSelection.
    cbn [messages setMessages setShowMoodSelector setUserMood].
    apply Forall_app. split; [assumption|].
    constructor; [|constructor; [apply generateMoodResponse_spoken | constructor]].
    eexists. split; [reflexivity | apply moodMessage_spoken].
  - destruct (String.eqb_spec (JSString.trim raw) "") as [E|E].
    + now rewrite (sendMessage_blank _ _ _ _ _ E).
    + rewrite (sendMessage_text _ _ _ _ _ E). cbn [messages].
      apply Forall_app. split; [assumption|].
      constructor; [now exists raw|]. constructor; [|constructor].
      destruct Hr as [Hlo Hhi]. rewrite generateBotResponse_classify.
      destruct (index_floorTimes rnd _ Hlo Hhi
                  (variants_nonempty (classify raw) (currentLanguage st)))
        as [i [reply [_ [Hnth Hidx]]]].
      exists reply. split; [exact Hidx|].
      apply variants_spoken with (classify raw) (currentLanguage st).
      now apply nth_error_In with i.
  - assumption.
Qed.

(** X11. In a session whose random numbers are such as [Math.random()]
    returns, every turn of the transcript has a text, never [undefined],
    that is not empty after trimming: the greeting, the mood turns (for any
    mood string), the texts sent and all replies. *)
Theorem runSession_spoken :
  forall (now : string) (ops : list Operation),
    Forall drawsInRange ops ->
    Forall spoken (messages (runSession now ops)).
Proof.
  intros now ops. unfold runSession.
  assert (H : Forall spoken (messages (initialize now))).
  { constructor; [|constructor].
    eexists. split; [reflexivity | vm_compute; discriminate]. }
  revert H. generalize (initialize now).
  induction ops as [|op ops IH]; intros st H Hr; [assumption|].
  cbn [fold_left]. inversion Hr; subst.
  apply IH; [now apply perform_spoken | assumption].
Qed.

Lemma runSession_spoken_witness :
  Forall spoken
    (messages
       (runSession "10:00:00"
          [ SelectMood "10:00:05" "10:00:05" "tired";
            SetLanguage kannada;
            SendMessage "10:00:20" "10:00:20" (3 # 4) " so much pressure " ])).
Proof.
  apply (runSession_spoken "10:00:00").
  repeat constructor; vm_compute; discriminate.
Defined.

(** *** The user interface *)

Lemma fire_promptMatchesMood e st st' :
  fire e st = Some st' -> promptMatchesMood st -> promptMatchesMood st'.
Proof.
  unfold promptMatchesMood.
  destruct e as [n1 n2 m|v|n1 n2 rnd|l]; cbn [fire]; intros H Hp.
  - destruct (showMoodSelector st); [|discriminate]. now inversion H.
  - now inversion H.
  - inversion H. destruct (handleSendMessage_frame n1 n2 rnd st) as [Hu Hs].
    now rewrite Hu, Hs.
  - now inversion H.
Qed.

Lemma fire_messages e st st' :
  fire e st = Some st' ->
  exists added, messages st' = (messages st ++ added)%list.
Proof.
  destruct e as [n1 n2 m|v|n1 n2 rnd|l]; cbn [fire]; intros H.
  - destruct (showMoodSelector st); [|discriminate]. inversion H.
    eexists. reflexivity.
  - inversion H. exists []. symmetry. apply app_nil_r.
  - inversion H. unfold handleSendMessage.
    destruct (String.eqb _ _).
    + exists []. symmetry. apply app_nil_r.
    + eexists. reflexivity.
  - inversion H. exists []. symmetry. apply app_nil_r.
Qed.

Lemma interact_invariants events : forall st st',
  interact events st = Some st' ->
  promptMatchesMood st ->
  promptMatchesMood st'
  /\ exists added, messages st' = (messages st ++ added)%list.
Proof.
  induction events as [|e events IH]; intros st st' H Hp.
  - inversion H; subst. split; [assumption|]. exists []. symmetry. apply app_nil_r.
  - cbn [interact] in H. destruct (fire e st) as [st1|] eqn:E; [|discriminate].
    destruct (IH _ _ H (fire_promptMatchesMood _ _ _ E Hp)) as [Hp' [a' Ha']].
    split; [assumption|].
    destruct (fire_messages _ _ _ E) as [a Ha].
    exists (a ++ a')%list. now rewrite Ha', Ha, app_assoc.
Qed.

(** X12. However a session is played through the interface, the mood
    buttons are on show exactly as long as no mood is recorded, and the
    transcript still starts with the greeting in English stamped at the
    start: changing the language translates no turn that is there. *)
Theorem interact_prompt_and_greeting :
  forall (now : string) (events : list Event) (st : State),
    interact events (initialize now) = Some st ->
    promptMatchesMood st
    /\ exists rest,
         messages st
         = {| text := str (greeting (translations english));
              sender := bot;
              timestamp := now |} :: rest.
Proof.
  intros now events st H.
  destruct (interact_invariants events _ _ H eq_refl) as [Hp [added Ha]].
  split; [assumption|]. exists added. exact Ha.
Qed.

Lemma interact_prompt_and_greeting_witness :
  exists st,
    interact [ ChangeLanguage marathi;
               ClickMood "10:00:05" "10:00:05" calm;
               ChangeInput "thanks";
               ClickSend "10:00:20" "10:00:20" (1 # 4) ]
      (initialize "10:00:00") = Some st
    /\ promptMatchesMood st
    /\ exists rest,
         messages st
         = {| text := str (greeting (translations english));
              sender := bot;
              timestamp := "10:00:00" |} :: rest.
Proof.
  eexists. split; [reflexivity|].
  apply (interact_prompt_and_greeting "10:00:00"
           [ ChangeLanguage marathi;
             ClickMood "10:00:05" "10:00:05" calm;
             ChangeInput "thanks";
             ClickSend "10:00:20" "10:00:20" (1 # 4) ]).
  reflexivity.
Defined.
